(** * IMS front end: session store, request gateway and route guard

    A shallow embedding of the client-side authentication lifecycle of the
    inventory management front end:

    - [AuthSlice]   : store/slices/authSlice.js (the Redux slice),
    - [Api]         : services/api.js (the axios instance and its interceptors),
    - [Guard]       : components/auth/PrivateRoute.js,
    - [InventorySlice] : the category thunk of store/slices/inventorySlice.js,
    - [CategoriesPage] : components/categories/Categories.js, the category
      screen the application mounts at [/categories],
    - [StockScreen] : the stock screen that calls axios directly,
    - [Navbar], [Login] : the callers of the slice's [logout] and [setToken],
    - [Inventory], [UiSlice] : the state and reducers of the inventory and
      UI slices,
    - [ProductsScreen], [CategoriesSearch] : the filters of the list
      screens.

    The browser is modelled by explicit state passing: [localStorage] is a
    finite map from keys to strings, [window.location.href] a string, the
    Redux auth state a record, and the requests handed to the transport a
    log. *)

From stdpp Require Import gmap strings list pretty.

Open Scope string_scope.

(** ** JavaScript values used by the code *)

(** Truthiness of a value that is [null] or a string: [null] and the empty
    string are falsy, every other string is truthy ([!!v], [if (v)]). *)
Definition truthy (v : option string) : bool :=
  match v with
  | None => false
  | Some "" => false
  | Some _ => true
  end.

(** [s.includes(needle)]: [needle] occurs somewhere in [s]. *)
Fixpoint includes (s needle : string) : bool :=
  String.prefix needle s ||
  match s with
  | EmptyString => false
  | String _ s' => includes s' needle
  end.

(** ** The Web Storage interface of [localStorage] *)

Definition getItem (k : string) (ls : gmap string string) : option string :=
  ls !! k.

Definition setItem (k v : string) (ls : gmap string string) : gmap string string :=
  <[k:=v]> ls.

Definition removeItem (k : string) (ls : gmap string string) : gmap string string :=
  delete k ls.

(** ** HTTP data as axios presents it *)

Record Config := {
  baseURL : string;
  url : string;
  method : string;
  headers : gmap string string;
  data : option string
}.

Record Response := {
  status : Z;
  body : string
}.

(** An axios error: [response] is undefined when the transport failed before
    any HTTP status arrived (network failure). *)
Record AxiosError := {
  response : option Response;
  message : string
}.

(** What the transport hands back for one request, and how a promise
    settles. *)
Inductive Outcome :=
  | Answered (r : Response)
  | Failed (e : AxiosError).

Inductive Settled :=
  | Resolved (r : Response)
  | Rejected (e : AxiosError).

(** ** Redux auth state and the browser around it *)

Record AuthState := {
  token : option string;
  isAuthenticated : bool;
  loading : bool;
  error : option string;
  user : option string
}.

Record World := {
  auth : AuthState;
  localStorage : gmap string string;
  href : string;
  network : list Config
}.

(** Field assignments, one per kind of statement in the source. *)
Definition set_token (v : option string) (s : AuthState) : AuthState :=
  {| token := v; isAuthenticated := isAuthenticated s; loading := loading s;
     error := error s; user := user s |}.

Definition set_isAuthenticated (v : bool) (s : AuthState) : AuthState :=
  {| token := token s; isAuthenticated := v; loading := loading s;
     error := error s; user := user s |}.

Definition set_loading (v : bool) (s : AuthState) : AuthState :=
  {| token := token s; isAuthenticated := isAuthenticated s; loading := v;
     error := error s; user := user s |}.

Definition set_error (v : option string) (s : AuthState) : AuthState :=
  {| token := token s; isAuthenticated := isAuthenticated s; loading := loading s;
     error := v; user := user s |}.

Definition on_state (f : AuthState -> AuthState) (w : World) : World :=
  {| auth := f (auth w); localStorage := localStorage w; href := href w;
     network := network w |}.

Definition on_storage (f : gmap string string -> gmap string string) (w : World) : World :=
  {| auth := auth w; localStorage := f (localStorage w); href := href w;
     network := network w |}.

Definition set_href (u : string) (w : World) : World :=
  {| auth := auth w; localStorage := localStorage w; href := u;
     network := network w |}.

Definition transmit (c : Config) (w : World) : World :=
  {| auth := auth w; localStorage := localStorage w; href := href w;
     network := network w ++ [c] |}.

(** ** store/slices/authSlice.js *)
Module AuthSlice.

(** [initialState]: read once, when the module is loaded. *)
Definition initialState (ls : gmap string string) : AuthState :=
  {| token := getItem "token" ls;
     isAuthenticated := truthy (getItem "token" ls);
     loading := false;
     error := None;
     user := None |}.

Definition setToken (payload : string) (w : World) : World :=
  let w := on_state (set_token (Some payload)) w in
  let w := on_state (set_isAuthenticated true) w in
  on_storage (setItem "token" payload) w.

Definition logout (w : World) : World :=
  let w := on_storage (removeItem "token") w in
  let w := on_state (set_token None) w in
  let w := on_state (set_isAuthenticated false) w in
  on_state (set_error None) w.

Definition setLoading (payload : bool) (w : World) : World :=
  on_state (set_loading payload) w.

(** The payload is [null] or a message string. *)
Definition setError (payload : option string) (w : World) : World :=
  let w := on_state (set_error payload) w in
  let w := on_state (set_loading false) w in
  match payload with
  | Some msg =>
      if truthy payload && includes msg "Invalid username or password" then
        let w := on_state (set_token None) w in
        let w := on_state (set_isAuthenticated false) w in
        on_storage (removeItem "token") w
      else w
  | None => w
  end.

Definition clearError (w : World) : World :=
  on_state (set_error None) w.

(** The actions the slice exports, and the reducer dispatching on them. *)
Inductive Action :=
  | SetToken (payload : string)
  | Logout
  | SetLoading (payload : bool)
  | SetError (payload : option string)
  | ClearError.

Definition reducer (a : Action) (w : World) : World :=
  match a with
  | SetToken p => setToken p w
  | Logout => logout w
  | SetLoading b => setLoading b w
  | SetError p => setError p w
  | ClearError => clearError w
  end.

(** The page starting up: the store is created from [initialState], nothing
    has been sent yet. *)
Definition startup (ls : gmap string string) (location : string) : World :=
  {| auth := initialState ls; localStorage := ls; href := location;
     network := [] |}.

End AuthSlice.

(** ** services/api.js *)
Module Api.
Section Instance.

(** [process.env.REACT_APP_API_URL], and the transport behind axios: the
    backend's answer to a request as it leaves the client. *)
Variable REACT_APP_API_URL : string.
Variable adapter : Config -> Outcome.

(** [axios.create({...})]: the defaults every call of the instance
    starts from. *)
Definition create (m u : string) (d : option string) : Config :=
  {| baseURL := REACT_APP_API_URL; url := u; method := m;
     headers := {[ "Content-Type" := "application/json" ]}; data := d |}.

Definition set_Authorization (v : string) (config : Config) : Config :=
  {| baseURL := baseURL config; url := url config; method := method config;
     headers := <["Authorization" := v]> (headers config);
     data := data config |}.

(** Request interceptor, fulfilled branch. *)
Definition request_fulfilled (config : Config) (w : World) : Config :=
  match getItem "token" (localStorage w) with
  | Some token =>
      if truthy (Some token)
      then set_Authorization ("Bearer " +:+ token) config
      else config
  | None => config
  end.

(** [error.response?.status === 401] *)
Definition unauthorized (e : AxiosError) : bool :=
  match response e with
  | Some r => (status r =? 401)%Z
  | None => false
  end.

(** The two statements guarded by the 401 test. *)
Definition on_unauthorized (w : World) : World :=
  let w := on_storage (removeItem "token") w in
  set_href "/login" w.

(** Response interceptor: fulfilled and rejected branches. *)
Definition response_fulfilled (r : Response) : Response := r.

Definition response_rejected (e : AxiosError) (w : World) : World * Settled :=
  let w := if unauthorized e then on_unauthorized w else w in
  (w, Rejected e).

(** One call through the instance: request interceptor, transport,
    response interceptor. The world returned is the one the caller's
    continuation runs in. *)
Definition request (config : Config) (w : World) : World * Settled :=
  let config := request_fulfilled config w in
  let w := transmit config w in
  match adapter config with
  | Answered r => (w, Resolved (response_fulfilled r))
  | Failed e => response_rejected e w
  end.

Definition get (u : string) : World -> World * Settled :=
  request (create "get" u None).

Definition post (u : string) (d : string) : World -> World * Settled :=
  request (create "post" u (Some d)).

Definition delete (u : string) : World -> World * Settled :=
  request (create "delete" u None).

End Instance.
End Api.

(** ** components/auth/PrivateRoute.js *)
Module Guard.

(** What a render of the guard returns: a [<Navigate>] element or the
    children it was given. *)
Inductive Element (A : Type) :=
  | Navigate (to : string) (replace : bool)
  | Children (children : A).
Arguments Navigate {A} to replace.
Arguments Children {A} children.

Definition PrivateRoute {A : Type} (children : A) (w : World) : Element A :=
  if negb (isAuthenticated (auth w))
  then Navigate "/login" true
  else Children children.

End Guard.

(** ** Category screens *)

Record Category := {
  id : N;
  name : string;
  description : option string;
  products_count : option Z;
  created_at : string
}.

(** [category.products_count > 0]; the comparison is false when the field is
    undefined. *)
Definition has_products (category : Category) : bool :=
  match products_count category with
  | Some n => (0 <? n)%Z
  | None => false
  end.

(** A rendered button: its [disabled] attribute and its [onClick] handler,
    which here takes the user's answer to [window.confirm]. *)
Record Button := {
  disabled : bool;
  onClick : bool -> World -> World
}.

(** A click on a disabled button fires no handler. *)
Definition click (b : Button) (confirm : bool) (w : World) : World :=
  if disabled b then w else onClick b confirm w.

(** store/slices/inventorySlice.js, the thunk behind the category screen. *)
Module InventorySlice.
Section Thunks.
Variable REACT_APP_API_URL : string.
Variable adapter : Config -> Outcome.

Definition deleteCategory (i : N) (w : World) : World * Settled :=
  Api.delete REACT_APP_API_URL adapter ("/categories/" +:+ pretty i +:+ "/") w.

End Thunks.
End InventorySlice.

(** components/categories/Categories.js *)
Module CategoriesPage.
Section Component.
Variable REACT_APP_API_URL : string.
Variable adapter : Config -> Outcome.

Definition handleDelete (i : N) (confirm : bool) (w : World) : World :=
  if confirm
  then (InventorySlice.deleteCategory REACT_APP_API_URL adapter i w).1
  else w.

Definition delete_button (category : Category) : Button :=
  {| disabled := has_products category;
     onClick := handleDelete (id category) |}.

End Component.
End CategoriesPage.

(** The stock screen that imports [axios] itself: its calls go through the
    default instance, which has no interceptors. *)
Module StockScreen.
Section Component.
Variable adapter : Config -> Outcome.

Definition axios_get (u : string) (w : World) : World * Settled :=
  let config := {| baseURL := ""; url := u; method := "get";
                   headers := ∅; data := None |} in
  let w := transmit config w in
  match adapter config with
  | Answered r => (w, Resolved r)
  | Failed e => (w, Rejected e)
  end.

Definition fetchStockMovements : World -> World * Settled :=
  axios_get "/api/stocks/".

End Component.
End StockScreen.

(** ** Vocabulary of the specification *)

(** The two session states, read off the store. *)
Inductive Status := Anonymous | Authenticated.

Definition session (w : World) : Status :=
  if isAuthenticated (auth w) then Authenticated else Anonymous.

(** A token is present: the value is neither [null] nor the empty string. *)
Definition token_in_memory (w : World) : bool :=
  truthy (token (auth w)).

Definition token_in_storage (w : World) : bool :=
  truthy (getItem "token" (localStorage w)).

(** The session invariant: the flag says that both copies hold a token, and
    the two copies agree on whether there is one. *)
Definition in_sync (w : World) : Prop :=
  isAuthenticated (auth w) = token_in_memory w && token_in_storage w
  ∧ token_in_memory w = token_in_storage w.

(** The two stores agree: they are in sync and hold the very same token
    value, or both none. *)
Definition stores_agree (w : World) : Prop :=
  in_sync w ∧ token (auth w) = getItem "token" (localStorage w).

(** The operations on the session: the two reducers, and the invalidation the
    gateway performs when the backend answers 401. *)
Inductive SessionOp :=
  | OpSetToken (t : string)
  | OpLogout
  | OpInvalidate.

Definition apply_op (o : SessionOp) (w : World) : World :=
  match o with
  | OpSetToken t => AuthSlice.setToken t w
  | OpLogout => AuthSlice.logout w
  | OpInvalidate => Api.on_unauthorized w
  end.

(** [setToken] is only applied to non-empty tokens. *)
Definition well_formed (o : SessionOp) : Prop :=
  match o with
  | OpSetToken t => t ≠ ""
  | _ => True
  end.

(** The run of a sequence of operations: for each one, the world before it,
    the operation, and the world once it has completed. *)
Fixpoint steps (ops : list SessionOp) (w : World) : list (World * SessionOp * World) :=
  match ops with
  | [] => []
  | o :: ops' => let w' := apply_op o w in (w, o, w') :: steps ops' w'
  end.

Definition states (ops : list SessionOp) (w : World) : list World :=
  (steps ops w).*2.

(** What holds once an operation has completed. *)
Definition settled_step (s : World * SessionOp * World) : Prop :=
  match s with
  | (w, OpInvalidate, w') =>
      token_in_storage w' = false ∧ auth w' = auth w
  | (_, _, w') => stores_agree w'
  end.

(** ** Sample inputs *)

(** A session right after a successful login with token [abc]. *)
Definition signed_in : World :=
  AuthSlice.setToken "abc" (AuthSlice.startup ∅ "/").

(** The error axios raises for an HTTP 401 answer, one for an HTTP 500
    answer, and one for a transport failure without any answer. *)
Definition expired : AxiosError :=
  {| response := Some {| status := 401; body := "" |};
     message := "Request failed with status code 401" |}.

Definition server_error : AxiosError :=
  {| response := Some {| status := 500; body := "" |};
     message := "Request failed with status code 500" |}.

Definition network_error : AxiosError :=
  {| response := None; message := "Network Error" |}.

(** A backend that accepts everything. *)
Definition accepting (_ : Config) : Outcome :=
  Answered {| status := 200; body := "" |}.

(** A category that has three products. *)
Definition stocked : Category :=
  {| id := 7; name := "Tools"; description := None;
     products_count := Some 3%Z; created_at := "2024-01-01" |}.

(** ** Further parts of the front end *)

(** [s.trim()] on strings of code units below 256: the white space and line
    terminator characters of that range are TAB, LF, VT, FF, CR, SP and
    NBSP. *)
Definition is_space (c : Ascii.ascii) : bool :=
  bool_decide (Ascii.nat_of_ascii c ∈ [9; 10; 11; 12; 13; 32; 160]%nat).

Fixpoint trimStart (s : string) : string :=
  match s with
  | String c s' => if is_space c then trimStart s' else s
  | EmptyString => EmptyString
  end.

Fixpoint trimEnd (s : string) : string :=
  match s with
  | String c s' =>
      match trimEnd s' with
      | EmptyString => if is_space c then EmptyString else String c EmptyString
      | r => String c r
      end
  | EmptyString => EmptyString
  end.

Definition trim (s : string) : string := trimEnd (trimStart s).

(** A string made of white space only (the empty string included). *)
Fixpoint blank (s : string) : bool :=
  match s with
  | String c s' => is_space c && blank s'
  | EmptyString => true
  end.

(** [navigate(to)] of react-router: the location becomes [to], the page is
    not reloaded. *)
Definition navigate (to : string) (w : World) : World := set_href to w.

(** Dispatching a list of actions to the auth slice, in order. *)
Definition dispatch_all (acts : list AuthSlice.Action) (w : World) : World :=
  foldl (λ w a, AuthSlice.reducer a w) w acts.

(** An action that, if it is a [setToken], carries a non-empty token. *)
Definition carries_token (a : AuthSlice.Action) : Prop :=
  match a with
  | AuthSlice.SetToken p => p ≠ ""
  | _ => True
  end.

(** components/layout/Navbar.js *)
Module Navbar.

Definition handleLogout (w : World) : World :=
  let w := AuthSlice.logout w in
  navigate "/login" w.

End Navbar.

(** components/auth/Login.js *)
Module Login.

Record FormData := {
  username : string;
  password : string
}.

(** The [errors] object [validateForm] builds. *)
Definition validationErrors (formData : FormData) : gmap string string :=
  let errors : gmap string string := ∅ in
  let errors :=
    if negb (truthy (Some (trim (username formData))))
    then <["username" := "Username is required"]> errors
    else errors in
  if negb (truthy (Some (password formData)))
  then <["password" := "Password is required"]> errors
  else if (String.length (password formData) <? 8)%nat
  then <["password" := "Password must be at least 8 characters"]> errors
  else errors.

(** [Object.keys(errors).length === 0] *)
Definition validateForm (formData : FormData) : bool :=
  bool_decide (size (validationErrors formData) = 0%nat).

Section Component.
Variable REACT_APP_API_URL : string.
Variable adapter : Config -> Outcome.

(** The JSON text of the request body and of the remembered user, and the
    [access] and [detail] members of the parsed answers. *)
Variable stringify : FormData -> string.
Variable stringify_user : string -> string.
Variable access : Response -> string.
Variable detail : AxiosError -> option string.

(** [err.response?.data?.detail || 'Failed to login. Please try again.'] *)
Definition errorMessage (err : AxiosError) : string :=
  match detail err with
  | Some d => if truthy (Some d) then d else "Failed to login. Please try again."
  | None => "Failed to login. Please try again."
  end.

Definition handleSubmit (formData : FormData) (rememberMe : bool) (w : World) : World :=
  if negb (validateForm formData) then w
  else
    let w := AuthSlice.setLoading true w in
    let w := AuthSlice.setError None w in
    let w :=
      match Api.post REACT_APP_API_URL adapter "/api/auth/token/" (stringify formData) w with
      | (w, Resolved r) =>
          let w := AuthSlice.setToken (access r) w in
          let w :=
            if rememberMe
            then on_storage (setItem "rememberedUser" (stringify_user (username formData))) w
            else on_storage (removeItem "rememberedUser") w in
          navigate "/" w
      | (w, Rejected err) =>
          AuthSlice.setError (Some (errorMessage err)) w
      end in
    AuthSlice.setLoading false w.

End Component.
End Login.

(** ** Entities and array helpers of the inventory slice *)

(** The members of a product and of a stock movement that the slice and the
    screens read. *)
Record Product := {
  product_id : N;
  product_name : string;
  product_description : option string;
  product_category : N;
  quantity : Z
}.

Record StockMovement := {
  movement_id : N;
  movement_product : N;
  movement_type : string;
  quantity_changed : Z;
  notes : option string
}.

(** [array.findIndex(f)]; [None] stands for the [-1] of JavaScript. *)
Fixpoint findIndex {A : Type} (f : A -> bool) (l : list A) : option nat :=
  match l with
  | [] => None
  | x :: l' => if f x then Some 0%nat else S <$> findIndex f l'
  end.

(** The [fulfilled] cases of update: [index = findIndex(...)], then
    [array[index] = payload] unless the index is [-1]. *)
Definition replace_found {A : Type} (same : A -> bool) (payload : A) (l : list A) : list A :=
  match findIndex same l with
  | Some index => <[index := payload]> l
  | None => l
  end.

(** store/slices/inventorySlice.js: state and reducers *)
Module Inventory.

Record State := {
  data : option string;
  loading : bool;
  error : option string;
  products : list Product;
  categories : list Category;
  selectedProduct : option Product;
  selectedCategory : option Category;
  filters : gmap string (gmap string string);
  stock : list StockMovement
}.

Definition initialState : State :=
  {| data := None; loading := false; error := None;
     products := []; categories := [];
     selectedProduct := None; selectedCategory := None;
     filters :=
       {[ "products" :=
            {[ "search" := ""; "category" := ""; "sortBy" := "name";
               "sortOrder" := "asc"; "stockStatus" := "" ]};
          "categories" :=
            {[ "search" := ""; "sortBy" := "name"; "sortOrder" := "asc" ]} ]};
     stock := [] |}.

Definition set_data (v : option string) (s : State) : State :=
  {| data := v; loading := loading s; error := error s; products := products s;
     categories := categories s; selectedProduct := selectedProduct s;
     selectedCategory := selectedCategory s; filters := filters s; stock := stock s |}.

Definition set_loading (v : bool) (s : State) : State :=
  {| data := data s; loading := v; error := error s; products := products s;
     categories := categories s; selectedProduct := selectedProduct s;
     selectedCategory := selectedCategory s; filters := filters s; stock := stock s |}.

Definition set_error (v : option string) (s : State) : State :=
  {| data := data s; loading := loading s; error := v; products := products s;
     categories := categories s; selectedProduct := selectedProduct s;
     selectedCategory := selectedCategory s; filters := filters s; stock := stock s |}.

Definition set_products (v : list Product) (s : State) : State :=
  {| data := data s; loading := loading s; error := error s; products := v;
     categories := categories s; selectedProduct := selectedProduct s;
     selectedCategory := selectedCategory s; filters := filters s; stock := stock s |}.

Definition set_categories (v : list Category) (s : State) : State :=
  {| data := data s; loading := loading s; error := error s; products := products s;
     categories := v; selectedProduct := selectedProduct s;
     selectedCategory := selectedCategory s; filters := filters s; stock := stock s |}.

Definition set_filters (v : gmap string (gmap string string)) (s : State) : State :=
  {| data := data s; loading := loading s; error := error s; products := products s;
     categories := categories s; selectedProduct := selectedProduct s;
     selectedCategory := selectedCategory s; filters := v; stock := stock s |}.

Definition set_stock (v : list StockMovement) (s : State) : State :=
  {| data := data s; loading := loading s; error := error s; products := products s;
     categories := categories s; selectedProduct := selectedProduct s;
     selectedCategory := selectedCategory s; filters := filters s; stock := v |}.

(** Reducers of the slice. *)
Definition clearError (s : State) : State := set_error None s.

Definition setSelectedProduct (payload : option Product) (s : State) : State :=
  {| data := data s; loading := loading s; error := error s; products := products s;
     categories := categories s; selectedProduct := payload;
     selectedCategory := selectedCategory s; filters := filters s; stock := stock s |}.

Definition setSelectedCategory (payload : option Category) (s : State) : State :=
  {| data := data s; loading := loading s; error := error s; products := products s;
     categories := categories s; selectedProduct := selectedProduct s;
     selectedCategory := payload; filters := filters s; stock := stock s |}.


Definition clearFilters (payload : string) (s : State) : State :=
  set_filters
    (<[payload := {[ "category" := ""; "stockStatus" := "" ]}]> (filters s)) s.

(** Cases added for the thunks. *)
Definition fetchDashboardData_pending (s : State) : State :=
  set_error None (set_loading true s).

Definition fetchDashboardData_fulfilled (payload : string) (s : State) : State :=
  set_error None (set_data (Some payload) (set_loading false s)).

Definition fetchDashboardData_rejected (payload : option string) (s : State) : State :=
  set_error payload (set_loading false s).

Definition fetchProducts_pending (s : State) : State :=
  set_error None (set_loading true s).

Definition fetchProducts_fulfilled (payload : list Product) (s : State) : State :=
  set_loading false (set_products payload s).

Definition fetchProducts_rejected (payload : option string) (s : State) : State :=
  set_error (if truthy payload then payload else Some "Failed to fetch products")
    (set_loading false s).

Definition createProduct_fulfilled (payload : Product) (s : State) : State :=
  set_products (products s ++ [payload]) s.

Definition updateProduct_fulfilled (payload : Product) (s : State) : State :=
  set_products
    (replace_found (λ p, (product_id p =? product_id payload)%N) payload (products s)) s.

Definition deleteProduct_fulfilled (payload : N) (s : State) : State :=
  set_products (filter (λ p, product_id p ≠ payload) (products s)) s.

Definition fetchCategories_pending (s : State) : State :=
  set_error None (set_loading true s).

Definition fetchCategories_fulfilled (payload : list Category) (s : State) : State :=
  set_loading false (set_categories payload s).

Definition fetchCategories_rejected (payload : option string) (s : State) : State :=
  set_error payload (set_loading false s).

Definition createCategory_fulfilled (payload : Category) (s : State) : State :=
  set_categories (categories s ++ [payload]) s.

Definition createCategory_rejected (payload : option string) (s : State) : State :=
  set_error payload s.

Definition updateCategory_fulfilled (payload : Category) (s : State) : State :=
  set_categories
    (replace_found (λ c, (id c =? id payload)%N) payload (categories s)) s.

Definition deleteCategory_fulfilled (payload : N) (s : State) : State :=
  set_categories (filter (λ c, id c ≠ payload) (categories s)) s.

Definition fetchStock_pending (s : State) : State :=
  set_error None (set_loading true s).

Definition fetchStock_fulfilled (payload : list StockMovement) (s : State) : State :=
  set_loading false (set_stock payload s).

Definition fetchStock_rejected (payload : option string) (s : State) : State :=
  set_error payload (set_loading false s).

Definition createStock_fulfilled (payload : StockMovement) (s : State) : State :=
  set_stock (payload :: stock s) s.

Definition updateStock_fulfilled (payload : StockMovement) (s : State) : State :=
  set_stock
    (replace_found (λ m, (movement_id m =? movement_id payload)%N) payload (stock s)) s.

Definition deleteStock_fulfilled (payload : N) (s : State) : State :=
  set_stock (filter (λ m, movement_id m ≠ payload) (stock s)) s.

Section Dispatch.
Variable REACT_APP_API_URL : string.
Variable adapter : Config -> Outcome.

(** [dispatch(deleteCategory(id))]: the thunk runs; when its request is
    fulfilled the [fulfilled] case above is applied with the id; the slice has
    no case for [deleteCategory.pending] nor for [deleteCategory.rejected]. *)
Definition dispatch_deleteCategory (i : N) (ws : World * State) : World * State :=
  match InventorySlice.deleteCategory REACT_APP_API_URL adapter i ws.1 with
  | (w, Resolved _) => (w, deleteCategory_fulfilled i ws.2)
  | (w, Rejected _) => (w, ws.2)
  end.

End Dispatch.
End Inventory.

(** store/slices/uiSlice.js *)
Module UiSlice.

Record Alert := {
  alert_id : Z;
  alert_type : string;
  alert_message : string;
  alert_timeout : Z
}.

Record State := {
  alerts : list Alert;
  modals : gmap string bool;
  sidebarOpen : bool;
  isLoading : bool
}.

Definition initialState : State :=
  {| alerts := [];
     modals := {[ "addProduct" := false; "addCategory" := false;
                  "confirmDelete" := false ]};
     sidebarOpen := true;
     isLoading := false |}.


Definition set_modals (v : gmap string bool) (s : State) : State :=
  {| alerts := alerts s; modals := v; sidebarOpen := sidebarOpen s;
     isLoading := isLoading s |}.



(** [!state.modals[name]]: an undefined entry counts as false. *)
Definition toggleModal (payload : string) (s : State) : State :=
  set_modals (<[payload := negb (default false (modals s !! payload))]> (modals s)) s.

Definition setModal (modal : string) (isOpen : bool) (s : State) : State :=
  set_modals (<[modal := isOpen]> (modals s)) s.

Definition toggleSidebar (s : State) : State :=
  {| alerts := alerts s; modals := modals s; sidebarOpen := negb (sidebarOpen s);
     isLoading := isLoading s |}.

Definition setLoading (payload : bool) (s : State) : State :=
  {| alerts := alerts s; modals := modals s; sidebarOpen := sidebarOpen s;
     isLoading := payload |}.

(** Whether a modal shows: [modals.name && ...]. *)
Definition shown (name : string) (s : State) : bool :=
  default false (modals s !! name).

End UiSlice.

(** The products screen: the stock filter and the colour of the quantity
    badge. *)
Module ProductsScreen.

Definition matchesStock (stockStatus : string) (product : Product) : bool :=
  negb (truthy (Some stockStatus))
  || (bool_decide (stockStatus = "low") && (quantity product <=? 10)%Z)
  || (bool_decide (stockStatus = "out") && (quantity product =? 0)%Z).

Definition badge (product : Product) : string :=
  if (quantity product =? 0)%Z then "bg-danger"
  else if (quantity product <=? 10)%Z then "bg-warning"
  else "bg-success".

End ProductsScreen.

(** components/categories/Categories.js: the search box. *)
Module CategoriesSearch.
Section Search.

(** [String.prototype.toLowerCase]. *)
Variable toLowerCase : string -> string.

Definition matches (searchTerm : string) (category : Category) : bool :=
  includes (toLowerCase (name category)) (toLowerCase searchTerm)
  || match description category with
     | Some d => includes (toLowerCase d) (toLowerCase searchTerm)
     | None => false
     end.

Definition filteredCategories (searchTerm : string) (categories : list Category)
    : list Category :=
  filter (λ category, matches searchTerm category) categories.

End Search.
End CategoriesSearch.

(** ** More sample inputs *)

Definition ann : Login.FormData :=
  {| Login.username := "ann"; Login.password := "correct horse" |}.

(** A token endpoint that answers every request with the same token, and a
    backend that refuses every request with a given error. *)
Definition issuing (_ : Config) : Outcome :=
  Answered {| status := 200; body := "abc" |}.

Definition refusing (e : AxiosError) (_ : Config) : Outcome := Failed e.

Definition empty_category : Category :=
  {| id := 1; name := "Paint"; description := Some "Cans";
     products_count := Some 0%Z; created_at := "2024-02-01" |}.

Definition renamed_category : Category :=
  {| id := 1; name := "Paints"; description := Some "Cans and sprays";
     products_count := Some 0%Z; created_at := "2024-02-01" |}.

Definition two_categories : Inventory.State :=
  Inventory.fetchCategories_fulfilled [empty_category; stocked]
    Inventory.initialState.

(** * Properties *)

(** ** Basic facts about the JavaScript helpers *)

Lemma truthy_Some (t : string) : truthy (Some t) = true ↔ t ≠ "".
Proof. destruct t; simpl; split; congruence. Qed.

Lemma truthy_Some_nonempty (t : string) : t ≠ "" → truthy (Some t) = true.
Proof. apply truthy_Some. Qed.

Lemma getItem_setItem (k v : string) (ls : gmap string string) :
  getItem k (setItem k v ls) = Some v.
Proof. apply lookup_insert_eq. Qed.

Lemma getItem_removeItem (k : string) (ls : gmap string string) :
  getItem k (removeItem k ls) = None.
Proof. apply lookup_delete_eq. Qed.

Lemma getItem_removeItem_ne (k k' : string) (ls : gmap string string) :
  k ≠ k' → getItem k' (removeItem k ls) = getItem k' ls.
Proof. apply lookup_delete_ne. Qed.

Lemma removeItem_twice (k : string) (ls : gmap string string) :
  removeItem k (removeItem k ls) = removeItem k ls.
Proof. apply delete_delete_eq. Qed.

(** ** Session store *)
Section SessionStore.
Import AuthSlice.

(** C8. At startup the session is derived from durable storage alone: when
    storage holds a (non-empty) token the store starts Authenticated with
    that token in memory, otherwise it starts Anonymous; nothing has been sent
    over the network, and two storages that agree on the token key give the
    same initial state. *)
Theorem initial_state_from_storage (ls : gmap string string) (loc : string) :
  (∀ t, getItem "token" ls = Some t → t ≠ "" →
     session (startup ls loc) = Authenticated
     ∧ token (auth (startup ls loc)) = Some t
     ∧ isAuthenticated (auth (startup ls loc)) = true)
  ∧ (token_in_storage (startup ls loc) = false →
     session (startup ls loc) = Anonymous
     ∧ isAuthenticated (auth (startup ls loc)) = false
     ∧ token_in_memory (startup ls loc) = false)
  ∧ network (startup ls loc) = []
  ∧ (∀ ls', getItem "token" ls' = getItem "token" ls →
     initialState ls' = initialState ls).
Proof.
  repeat split.
  - unfold session; simpl. rewrite H. by rewrite truthy_Some_nonempty.
  - simpl. exact H.
  - simpl. rewrite H. by apply truthy_Some_nonempty.
  - unfold session; simpl. unfold token_in_storage in H; simpl in H. by rewrite H.
  - exact H.
  - exact H.
  - intros ls' Heq. unfold initialState. by rewrite Heq.
Qed.

Lemma initial_state_from_storage_witness :
  session (startup {[ "token" := "abc" ]} "/") = Authenticated
  ∧ token (auth (startup {[ "token" := "abc" ]} "/")) = Some "abc"
  ∧ isAuthenticated (auth (startup {[ "token" := "abc" ]} "/")) = true.
Proof.
  apply (proj1 (initial_state_from_storage {[ "token" := "abc" ]} "/") "abc").
  - reflexivity.
  - discriminate.
Defined.

(** C9. [logout] is idempotent: a second [logout] changes nothing at all, and
    after any [logout] the session is logged out (no token in memory, none in
    storage, flag false). *)
Theorem logout_idempotent (w : World) :
  logout (logout w) = logout w
  ∧ token (auth (logout w)) = None
  ∧ isAuthenticated (auth (logout w)) = false
  ∧ getItem "token" (localStorage (logout w)) = None
  ∧ session (logout w) = Anonymous.
Proof.
  repeat split.
  - unfold logout, on_state, on_storage; simpl. by rewrite removeItem_twice.
  - apply getItem_removeItem.
Qed.

(** C10. [setToken] accepts every payload: the flag becomes true and the
    payload is written to memory and to storage, so the empty string yields a
    store that is Authenticated while holding no (truthy) token. *)
Theorem setToken_any_payload (payload : string) (w : World) :
  isAuthenticated (auth (setToken payload w)) = true
  ∧ token (auth (setToken payload w)) = Some payload
  ∧ getItem "token" (localStorage (setToken payload w)) = Some payload
  ∧ isAuthenticated (auth (setToken "" w)) = true
  ∧ token (auth (setToken "" w)) = Some ""
  ∧ token_in_memory (setToken "" w) = false.
Proof.
  repeat split; apply getItem_setItem.
Qed.

End SessionStore.

(** ** The session as a state machine *)
Section StateMachine.
Import AuthSlice.

Lemma session_cases (w : World) :
  session w = Anonymous ∨ session w = Authenticated.
Proof. unfold session. destruct (isAuthenticated (auth w)); auto. Qed.

(** C4, as stated, fails: [setError] is neither [setToken] nor [logout], yet a
    payload containing the bad-credentials message takes an Authenticated
    session to Anonymous. *)
Lemma setError_signs_out :
  session signed_in = Authenticated
  ∧ session (reducer (SetError (Some "Invalid username or password")) signed_in)
    = Anonymous.
Proof. split; reflexivity. Qed.

(** C4, amended. The status is one of two values. [setToken] always ends
    Authenticated and [logout] always ends Anonymous; [setError] ends
    Anonymous when its message contains the bad-credentials text and leaves
    the status alone otherwise; [setLoading], [clearError] and the gateway's
    401 handling never change the status held in the store. *)
Theorem session_transitions (a : Action) (w : World) :
  (session w = Anonymous ∨ session w = Authenticated)
  ∧ session (reducer a w) =
      match a with
      | SetToken _ => Authenticated
      | Logout => Anonymous
      | SetError (Some msg) =>
          if includes msg "Invalid username or password"
          then Anonymous else session w
      | SetError None | SetLoading _ | ClearError => session w
      end
  ∧ session (Api.on_unauthorized w) = session w.
Proof.
  split; [apply session_cases|]. split; [|reflexivity].
  destruct a as [p| |b|[msg|]|]; try reflexivity.
  simpl. unfold setError.
  destruct (includes msg "Invalid username or password") eqn:Hinc.
  - destruct msg as [|c msg]; [discriminate Hinc|]. reflexivity.
  - by rewrite andb_false_r.
Qed.

End StateMachine.

(** ** The session invariant along sequences of operations *)
Section Invariant.
Import AuthSlice.

Lemma in_sync_startup (ls : gmap string string) (loc : string) :
  in_sync (startup ls loc).
Proof.
  unfold in_sync, token_in_memory, token_in_storage; simpl.
  by rewrite andb_diag.
Qed.

Lemma in_sync_setToken (t : string) (w : World) :
  t ≠ "" → in_sync (setToken t w).
Proof.
  intros Ht. unfold in_sync, token_in_memory, token_in_storage.
  cbn [setToken on_state on_storage set_token set_isAuthenticated
       auth localStorage token isAuthenticated].
  rewrite getItem_setItem. by rewrite (truthy_Some_nonempty t Ht).
Qed.

Lemma in_sync_logout (w : World) : in_sync (logout w).
Proof.
  unfold in_sync, token_in_memory, token_in_storage; simpl.
  by rewrite getItem_removeItem.
Qed.

Lemma on_unauthorized_storage (w : World) :
  token_in_storage (Api.on_unauthorized w) = false
  ∧ auth (Api.on_unauthorized w) = auth w.
Proof.
  unfold token_in_storage; simpl. by rewrite getItem_removeItem.
Qed.

Lemma stores_agree_startup (ls : gmap string string) (loc : string) :
  stores_agree (startup ls loc).
Proof. split; [apply in_sync_startup | reflexivity]. Qed.

Lemma stores_agree_setToken (t : string) (w : World) :
  t ≠ "" → stores_agree (setToken t w).
Proof.
  intros Ht. split; [by apply in_sync_setToken|].
  simpl. by rewrite getItem_setItem.
Qed.

Lemma stores_agree_logout (w : World) : stores_agree (logout w).
Proof.
  split; [apply in_sync_logout|]. simpl. by rewrite getItem_removeItem.
Qed.

Lemma settled_apply_op (o : SessionOp) (w : World) :
  well_formed o → settled_step (w, o, apply_op o w).
Proof.
  destruct o as [t| |]; simpl; intros Hwf.
  - by apply stores_agree_setToken.
  - apply stores_agree_logout.
  - apply on_unauthorized_storage.
Qed.

(** C3, as stated, fails: after a login followed by the gateway's
    invalidation the flag is still true although storage holds no token. *)
Lemma invalidate_breaks_sync :
  Forall well_formed [OpSetToken "abc"; OpInvalidate]
  ∧ ¬ Forall in_sync (states [OpSetToken "abc"; OpInvalidate] (startup ∅ "/")).
Proof.
  split.
  - repeat constructor. discriminate.
  - intros H. apply Forall_cons_1 in H as [_ H].
    apply Forall_cons_1 in H as [[H _] _].
    vm_compute in H. discriminate H.
Qed.

(** C3, amended. From startup, along every sequence of [setToken] (on
    non-empty tokens), [logout] and invalidation: the store starts in sync;
    once a [setToken] or [logout] has completed, the flag is true exactly when
    a token is present in memory and in storage, and the two stores agree:
    the token in memory is the very value held in storage, or both hold none;
    once an invalidation has completed, storage holds no token and the store
    in memory is as it was before. *)
Theorem session_sync_along_operations
    (ls : gmap string string) (loc : string) (ops : list SessionOp) :
  Forall well_formed ops →
  stores_agree (startup ls loc)
  ∧ Forall settled_step (steps ops (startup ls loc)).
Proof.
  intros Hwf. split; [apply stores_agree_startup|].
  generalize (startup ls loc) as w.
  induction Hwf as [|o ops Ho _ IH]; intros w; simpl.
  - constructor.
  - constructor; [by apply settled_apply_op | apply IH].
Qed.

Lemma session_sync_along_operations_witness :
  stores_agree (startup ∅ "/")
  ∧ Forall settled_step
      (steps [OpSetToken "abc"; OpInvalidate; OpSetToken "xyz"; OpLogout]
         (startup ∅ "/")).
Proof.
  apply (session_sync_along_operations ∅ "/").
  repeat constructor; discriminate.
Defined.

End Invariant.

(** ** Request gateway *)
Section Gateway.
Import AuthSlice.

Lemma unauthorized_no_response (e : AxiosError) :
  response e = None → Api.unauthorized e = false.
Proof. unfold Api.unauthorized. by intros ->. Qed.

Lemma unauthorized_status (e : AxiosError) :
  Api.unauthorized e = true ↔ ∃ r, response e = Some r ∧ status r = 401%Z.
Proof.
  unfold Api.unauthorized. destruct (response e) as [r|]; split.
  - intros H. exists r. split; [done|]. by apply Z.eqb_eq.
  - intros (r' & [= <-] & H). by apply Z.eqb_eq.
  - discriminate.
  - by intros (r' & H & _).
Qed.

Lemma request_network (adapter : Config → Outcome) (config : Config) (w : World) :
  network (Api.request adapter config w).1
  = (network w ++ [Api.request_fulfilled config w])%list.
Proof.
  unfold Api.request, Api.response_rejected.
  destruct (adapter _) as [r|e]; [done|].
  by destruct (Api.unauthorized e).
Qed.

Lemma request_fulfilled_token (config : Config) (w : World) (t : string) :
  getItem "token" (localStorage w) = Some t → t ≠ "" →
  Api.request_fulfilled config w = Api.set_Authorization ("Bearer " +:+ t) config.
Proof.
  intros Hget Ht. unfold Api.request_fulfilled. rewrite Hget.
  by rewrite (truthy_Some_nonempty t Ht).
Qed.

Lemma request_fulfilled_no_token (config : Config) (w : World) :
  token_in_storage w = false → Api.request_fulfilled config w = config.
Proof.
  unfold token_in_storage, Api.request_fulfilled.
  destruct (getItem "token" (localStorage w)) as [t|]; [|done].
  by intros ->.
Qed.

(** C1, as stated, fails: after the interceptor has handled a 401 the store
    in memory is still Authenticated. *)
Lemma unauthorized_leaves_store_signed_in :
  Api.unauthorized expired = true
  ∧ ¬ (getItem "token" (localStorage (Api.response_rejected expired signed_in).1) = None
       ∧ session (Api.response_rejected expired signed_in).1 = Anonymous
       ∧ href (Api.response_rejected expired signed_in).1 = "/login").
Proof.
  split; [reflexivity|]. intros (_ & H & _). discriminate H.
Qed.

(** C1, amended. For every error whose response has status 401, whatever
    call it answers, the response interceptor removes the token from durable
    storage (and nothing else from it) and points the location at the login
    entry point, and the caller receives the original error in the world
    where both have happened. The store in memory is not touched; the next
    startup, reading the emptied storage, begins Anonymous. *)
Theorem unauthorized_clears_storage_and_redirects
    (adapter : Config → Outcome) (config : Config) (e : AxiosError) (w : World) :
  Api.unauthorized e = true →
  ∃ w',
    Api.response_rejected e w = (w', Rejected e)
    ∧ (adapter (Api.request_fulfilled config w) = Failed e →
       Api.request adapter config w
       = Api.response_rejected e (transmit (Api.request_fulfilled config w) w))
    ∧ getItem "token" (localStorage w') = None
    ∧ (∀ k, k ≠ "token" →
         getItem k (localStorage w') = getItem k (localStorage w))
    ∧ href w' = "/login"
    ∧ auth w' = auth w
    ∧ (∀ loc, session (startup (localStorage w') loc) = Anonymous
              ∧ token (auth (startup (localStorage w') loc)) = None).
Proof.
  intros He. exists (Api.on_unauthorized w).
  assert (Hgone : getItem "token" (localStorage (Api.on_unauthorized w)) = None)
    by apply getItem_removeItem.
  repeat split.
  - unfold Api.response_rejected. by rewrite He.
  - intros Hfail. unfold Api.request. by rewrite Hfail.
  - exact Hgone.
  - intros k Hk. simpl. by apply getItem_removeItem_ne.
  - unfold session; simpl. fold (Api.on_unauthorized w) in *.
    change (localStorage (Api.on_unauthorized w))
      with (removeItem "token" (localStorage w)).
    by rewrite getItem_removeItem.
  - simpl. apply getItem_removeItem.
Qed.

Lemma unauthorized_clears_storage_and_redirects_witness :
  ∃ w',
    Api.response_rejected expired signed_in = (w', Rejected expired)
    ∧ (accepting (Api.request_fulfilled (Api.create "" "get" "/api/products/" None) signed_in)
         = Failed expired →
       Api.request accepting (Api.create "" "get" "/api/products/" None) signed_in
       = Api.response_rejected expired
           (transmit (Api.request_fulfilled (Api.create "" "get" "/api/products/" None) signed_in)
              signed_in))
    ∧ getItem "token" (localStorage w') = None
    ∧ (∀ k, k ≠ "token" →
         getItem k (localStorage w') = getItem k (localStorage signed_in))
    ∧ href w' = "/login"
    ∧ auth w' = auth signed_in
    ∧ (∀ loc, session (startup (localStorage w') loc) = Anonymous
              ∧ token (auth (startup (localStorage w') loc)) = None).
Proof.
  apply (unauthorized_clears_storage_and_redirects accepting
           (Api.create "" "get" "/api/products/" None) expired signed_in).
  reflexivity.
Defined.

(** C2, as stated, fails: the login call of an anonymous visitor leaves the
    client without any Authorization header. *)
Lemma anonymous_call_has_no_authorization :
  ∃ c, network (Api.post "" accepting "/api/auth/token/" "{}" (startup ∅ "/login")).1 = [c]
       ∧ headers c !! "Authorization" = None.
Proof. eexists. split; reflexivity. Qed.

(** C2, amended. Every call made through the [api] instance while durable
    storage holds a non-empty token leaves the client with the header
    [Authorization: Bearer <token>], the token being the one in storage when
    the call is sent: if the token is replaced between two calls, the first
    carries the old one and the second the new one. While storage holds no
    token the request is sent as the caller built it. *)
Theorem authorization_read_at_send_time
    (adapter1 adapter2 : Config → Outcome) (config1 config2 : Config)
    (w : World) (t t' : string) :
  getItem "token" (localStorage w) = Some t → t ≠ "" → t' ≠ "" →
  headers (Api.request_fulfilled config1 w) !! "Authorization"
    = Some ("Bearer " +:+ t)
  ∧ (∃ c1 c2,
       network (Api.request adapter2 config2
                  (setToken t' (Api.request adapter1 config1 w).1)).1
         = (network w ++ [c1; c2])%list
       ∧ headers c1 !! "Authorization" = Some ("Bearer " +:+ t)
       ∧ headers c2 !! "Authorization" = Some ("Bearer " +:+ t'))
  ∧ (∀ w0, token_in_storage w0 = false →
       Api.request_fulfilled config1 w0 = config1).
Proof.
  intros Hget Ht Ht'.
  assert (H1 : headers (Api.request_fulfilled config1 w) !! "Authorization"
               = Some ("Bearer " +:+ t)).
  { rewrite (request_fulfilled_token config1 w t Hget Ht). apply lookup_insert_eq. }
  split; [exact H1|]. split; [|intros w0; apply request_fulfilled_no_token].
  set (w1 := (Api.request adapter1 config1 w).1).
  exists (Api.request_fulfilled config1 w),
         (Api.request_fulfilled config2 (setToken t' w1)).
  split; [|split; [exact H1|]].
  - rewrite request_network. simpl network. unfold w1. rewrite request_network.
    by rewrite <- app_assoc.
  - rewrite (request_fulfilled_token config2 (setToken t' w1) t').
    + apply lookup_insert_eq.
    + apply getItem_setItem.
    + exact Ht'.
Qed.

Lemma authorization_read_at_send_time_witness :
  headers (Api.request_fulfilled (Api.create "" "get" "/api/products/" None) signed_in)
    !! "Authorization" = Some "Bearer abc".
Proof.
  apply (authorization_read_at_send_time accepting accepting
           (Api.create "" "get" "/api/products/" None)
           (Api.create "" "get" "/api/stocks/" None) signed_in "abc" "xyz").
  - reflexivity.
  - discriminate.
  - discriminate.
Defined.

(** The stock screen that calls [axios] directly bypasses the interceptor:
    its request carries no Authorization header even when a token is stored. *)
Lemma fetchStockMovements_bypasses_gateway (adapter : Config → Outcome) (w : World) :
  ∃ c, network (StockScreen.fetchStockMovements adapter w).1
         = (network w ++ [c])%list
       ∧ headers c !! "Authorization" = None.
Proof.
  eexists. split.
  - unfold StockScreen.fetchStockMovements, StockScreen.axios_get.
    destruct (adapter _); reflexivity.
  - reflexivity.
Qed.

(** C7. A fulfilled response is returned as it is. An error whose response
    status is not 401, or that has no response at all (network failure), is
    rejected as it is and the world is left alone: nothing is removed from
    storage and the location stays. Whatever the outcome, a call hands exactly
    one request to the transport: there is no retry. *)
Theorem other_results_pass_through
    (adapter : Config → Outcome) (config : Config) (e : AxiosError) (w : World) :
  Api.unauthorized e = false →
  Api.response_rejected e w = (w, Rejected e)
  ∧ (adapter (Api.request_fulfilled config w) = Failed e →
     Api.request adapter config w
     = (transmit (Api.request_fulfilled config w) w, Rejected e))
  ∧ (∀ r, Api.response_fulfilled r = r)
  ∧ (∀ r, adapter (Api.request_fulfilled config w) = Answered r →
     Api.request adapter config w
     = (transmit (Api.request_fulfilled config w) w, Resolved r))
  ∧ (∀ e', response e' = None → Api.response_rejected e' w = (w, Rejected e'))
  ∧ network (Api.request adapter config w).1
    = (network w ++ [Api.request_fulfilled config w])%list.
Proof.
  intros He.
  assert (Hrej : ∀ e0 w0, Api.unauthorized e0 = false →
                          Api.response_rejected e0 w0 = (w0, Rejected e0)).
  { intros e0 w0 H0. unfold Api.response_rejected. by rewrite H0. }
  split; [by apply Hrej|].
  split; [intros Hfail; unfold Api.request; rewrite Hfail; by apply Hrej|].
  split; [done|].
  split; [intros r Hok; unfold Api.request; by rewrite Hok|].
  split; [intros e' Hnone; by apply Hrej, unauthorized_no_response|].
  apply request_network.
Qed.

Lemma other_results_pass_through_witness :
  Api.response_rejected server_error signed_in = (signed_in, Rejected server_error)
  ∧ Api.response_rejected network_error signed_in = (signed_in, Rejected network_error).
Proof.
  split.
  - refine (proj1 (other_results_pass_through accepting
                     (Api.create "" "get" "/api/products/" None)
                     server_error signed_in _)).
    reflexivity.
  - refine (proj1 (other_results_pass_through accepting
                     (Api.create "" "get" "/api/products/" None)
                     network_error signed_in _)).
    reflexivity.
Defined.

End Gateway.

(** ** Route guard *)
Section RouteGuard.
Import Guard.

(** C6. The guard renders its children exactly when the session is
    Authenticated at render time, and then returns them unchanged; for an
    Anonymous session it returns a navigation to the login entry point that
    replaces the current history entry. *)
Theorem private_route_guard {A : Type} (children : A) (w : World) :
  (PrivateRoute children w = Children children ↔ session w = Authenticated)
  ∧ (session w = Authenticated → PrivateRoute children w = Children children)
  ∧ (session w = Anonymous → PrivateRoute children w = Navigate "/login" true).
Proof.
  unfold PrivateRoute, session.
  destruct (isAuthenticated (auth w)); simpl; repeat split; done.
Qed.

Lemma private_route_guard_witness :
  PrivateRoute "dashboard" signed_in = Children "dashboard"
  ∧ PrivateRoute "dashboard" (AuthSlice.logout signed_in) = Navigate "/login" true.
Proof.
  split.
  - apply (private_route_guard "dashboard" signed_in). reflexivity.
  - apply (private_route_guard "dashboard" (AuthSlice.logout signed_in)). reflexivity.
Defined.

End RouteGuard.

(** ** Deleting a category *)
Section CategoryDeletion.

(** C5. On the categories screen, the delete button of every category whose
    product count is greater than zero is disabled: a click on it runs no
    handler, whatever the user would have answered to the confirmation, so
    the world is left as it is and no DELETE request, nor any other, is
    sent for the category. *)
Theorem delete_disabled_with_products
    (base : string) (adapter : Config → Outcome) (category : Category) (n : Z)
    (confirm : bool) (w : World) :
  products_count category = Some n → (0 < n)%Z →
  disabled (CategoriesPage.delete_button base adapter category) = true
  ∧ click (CategoriesPage.delete_button base adapter category) confirm w = w
  ∧ network (click (CategoriesPage.delete_button base adapter category) confirm w)
    = network w.
Proof.
  intros Hcount Hn.
  assert (Hdis : disabled (CategoriesPage.delete_button base adapter category) = true).
  { simpl. unfold has_products. rewrite Hcount. by apply Z.ltb_lt. }
  split; [exact Hdis|].
  unfold click. by rewrite Hdis.
Qed.

Lemma delete_disabled_with_products_witness :
  disabled (CategoriesPage.delete_button "" accepting stocked) = true
  ∧ click (CategoriesPage.delete_button "" accepting stocked) true signed_in
    = signed_in
  ∧ network (click (CategoriesPage.delete_button "" accepting stocked) true signed_in)
    = network signed_in.
Proof.
  apply (delete_disabled_with_products "" accepting stocked 3 true signed_in).
  - reflexivity.
  - lia.
Defined.

(** A category without products can be deleted from the same screen: the
    button is enabled and a confirmed click sends one DELETE request. *)
Lemma delete_enabled_without_products
    (base : string) (adapter : Config → Outcome) (category : Category) (w : World) :
  has_products category = false →
  ∃ c, network (click (CategoriesPage.delete_button base adapter category) true w)
         = (network w ++ [c])%list
       ∧ method c = "delete".
Proof.
  intros H. unfold click; simpl disabled. rewrite H.
  unfold onClick, CategoriesPage.delete_button, CategoriesPage.handleDelete,
    InventorySlice.deleteCategory, Api.delete.
  rewrite request_network. eexists. split; [reflexivity|].
  unfold Api.request_fulfilled.
  destruct (getItem "token" (localStorage w)) as [t|]; [|done].
  by destruct (truthy (Some t)).
Qed.

End CategoryDeletion.

(** ** Further properties of the auth slice *)
Section AuthSliceMore.
Import AuthSlice.

Lemma setError_unmatched (msg : string) (w : World) :
  includes msg "Invalid username or password" = false →
  setError (Some msg) w = on_state (set_loading false) (on_state (set_error (Some msg)) w).
Proof. intros H. unfold setError. rewrite H. by rewrite andb_false_r. Qed.

Lemma setError_matched (msg : string) (w : World) :
  includes msg "Invalid username or password" = true →
  setError (Some msg) w
  = on_storage (removeItem "token")
      (on_state (set_isAuthenticated false)
         (on_state (set_token None)
            (on_state (set_loading false) (on_state (set_error (Some msg)) w)))).
Proof.
  intros H. unfold setError. rewrite H.
  destruct msg as [|c msg]; [discriminate H|]. reflexivity.
Qed.

Lemma reducer_in_sync (a : Action) (w : World) :
  carries_token a → in_sync w → in_sync (reducer a w).
Proof.
  intros Ha Hw. destruct a as [p| |b|[msg|]|]; cbn [reducer].
  - by apply in_sync_setToken.
  - apply in_sync_logout.
  - exact Hw.
  - destruct (includes msg "Invalid username or password") eqn:Hinc.
    + rewrite (setError_matched msg w Hinc).
      unfold in_sync, token_in_memory, token_in_storage; simpl.
      by rewrite getItem_removeItem.
    + rewrite (setError_unmatched msg w Hinc). exact Hw.
  - exact Hw.
  - exact Hw.
Qed.

(** X1. Every action of the slice keeps the session invariant, [setToken]
    being given non-empty tokens: from a world in sync, any sequence of
    dispatched actions ends in a world in sync. *)
Theorem dispatch_all_in_sync (acts : list Action) (w : World) :
  Forall carries_token acts → in_sync w → in_sync (dispatch_all acts w).
Proof.
  intros Hacts. revert w.
  induction Hacts as [|a acts Ha _ IH]; intros w Hw; simpl; [done|].
  apply IH. by apply reducer_in_sync.
Qed.

Lemma dispatch_all_in_sync_witness :
  in_sync (dispatch_all
             [SetLoading true; SetToken "abc"; SetError (Some "Network down");
              SetError (Some "Invalid username or password"); ClearError]
             (startup ∅ "/")).
Proof.
  apply dispatch_all_in_sync.
  - repeat constructor. discriminate.
  - apply in_sync_startup.
Defined.

(** X2. No action of the slice touches anything of the browser but the
    [token] entry of durable storage: every other key (the remembered user,
    say) keeps its value, and the location and the requests sent stay as they
    are. *)
Theorem reducer_frame (a : Action) (w : World) :
  (∀ k, k ≠ "token" →
     getItem k (localStorage (reducer a w)) = getItem k (localStorage w))
  ∧ href (reducer a w) = href w
  ∧ network (reducer a w) = network w
  ∧ user (auth (reducer a w)) = user (auth w).
Proof.
  destruct a as [p| |b|[msg|]|]; cbn [reducer];
    try (repeat split; intros; first [done | by apply lookup_insert_ne
                                     | by apply lookup_delete_ne]).
  destruct (includes msg "Invalid username or password") eqn:Hinc.
  - rewrite (setError_matched msg w Hinc).
    repeat split. intros k Hk. by apply lookup_delete_ne.
  - rewrite (setError_unmatched msg w Hinc). by repeat split.
Qed.

Lemma reducer_never_signs_in (a : Action) (w : World) :
  (∀ p, a ≠ SetToken p) →
  session (reducer a w) = Authenticated →
  session w = Authenticated
  ∧ token (auth (reducer a w)) = token (auth w)
  ∧ localStorage (reducer a w) = localStorage w.
Proof.
  intros Ha. destruct a as [p| |b|[msg|]|]; cbn [reducer]; try done.
  - by destruct (Ha p).
  - destruct (includes msg "Invalid username or password") eqn:Hinc.
    + by rewrite (setError_matched msg w Hinc).
    + by rewrite (setError_unmatched msg w Hinc).
Qed.

(** X3. Only [setToken] can sign a user in. If no [setToken] is among the
    actions dispatched and the session is Authenticated at the end, then it
    was Authenticated at the start, and the token in memory and the whole of
    durable storage are what they were. *)
Theorem only_setToken_signs_in (acts : list Action) (w : World) :
  Forall (λ a, ∀ p, a ≠ SetToken p) acts →
  session (dispatch_all acts w) = Authenticated →
  session w = Authenticated
  ∧ token (auth (dispatch_all acts w)) = token (auth w)
  ∧ localStorage (dispatch_all acts w) = localStorage w.
Proof.
  intros Hacts. revert w.
  induction Hacts as [|a acts Ha _ IH]; intros w Hend; simpl in *; [done|].
  destruct (IH _ Hend) as (Hs & Ht & Hl).
  destruct (reducer_never_signs_in a w Ha Hs) as (Hs' & Ht' & Hl').
  split; [done|]. split; congruence.
Qed.

Lemma only_setToken_signs_in_witness :
  session signed_in = Authenticated
  ∧ token (auth (dispatch_all [SetLoading true; SetError (Some "Timeout"); ClearError]
                   signed_in)) = token (auth signed_in)
  ∧ localStorage (dispatch_all [SetLoading true; SetError (Some "Timeout"); ClearError]
                    signed_in) = localStorage signed_in.
Proof.
  apply (only_setToken_signs_in
           [SetLoading true; SetError (Some "Timeout"); ClearError] signed_in).
  - repeat constructor; discriminate.
  - reflexivity.
Defined.

(** X4. The last write wins: a [setToken] after another leaves exactly what
    the second alone would leave, and a [logout] after a [setToken] leaves
    exactly what [logout] alone would leave. *)
Theorem setToken_overwritten (t1 t2 : string) (w : World) :
  setToken t2 (setToken t1 w) = setToken t2 w
  ∧ logout (setToken t1 w) = logout w.
Proof.
  split.
  - unfold setToken, on_state, on_storage, setItem; simpl.
    by rewrite insert_insert_eq.
  - unfold logout, setToken, on_state, on_storage, setItem, removeItem; simpl.
    by rewrite delete_insert_eq.
Qed.

(** X5. A [setError] whose message contains the bad-credentials text signs
    out like [logout] does, except that the message stays: clearing the error
    afterwards gives the world [logout] gives (with the loading flag off). *)
Theorem setError_bad_credentials_is_logout (msg : string) (w : World) :
  includes msg "Invalid username or password" = true →
  clearError (setError (Some msg) w) = setLoading false (logout w)
  ∧ error (auth (setError (Some msg) w)) = Some msg
  ∧ getItem "token" (localStorage (setError (Some msg) w)) = None.
Proof.
  intros H. rewrite (setError_matched msg w H).
  repeat split. apply getItem_removeItem.
Qed.

Lemma setError_bad_credentials_is_logout_witness :
  clearError (setError (Some "Error: Invalid username or password.") signed_in)
  = setLoading false (logout signed_in)
  ∧ error (auth (setError (Some "Error: Invalid username or password.") signed_in))
    = Some "Error: Invalid username or password."
  ∧ getItem "token"
      (localStorage (setError (Some "Error: Invalid username or password.") signed_in))
    = None.
Proof.
  apply (setError_bad_credentials_is_logout
           "Error: Invalid username or password." signed_in).
  reflexivity.
Defined.

End AuthSliceMore.

(** ** Further properties of the gateway and of its callers *)
Section GatewayMore.
Import AuthSlice.

(** X6. The request interceptor changes nothing of a request but its
    Authorization header: base URL, URL, method and body are kept, and so is
    every other header. *)
Theorem request_fulfilled_frame (config : Config) (w : World) :
  baseURL (Api.request_fulfilled config w) = baseURL config
  ∧ url (Api.request_fulfilled config w) = url config
  ∧ method (Api.request_fulfilled config w) = method config
  ∧ data (Api.request_fulfilled config w) = data config
  ∧ (∀ h, h ≠ "Authorization" →
       headers (Api.request_fulfilled config w) !! h = headers config !! h).
Proof.
  unfold Api.request_fulfilled.
  destruct (getItem "token" (localStorage w)) as [t|]; [|done].
  destruct (truthy (Some t)); [|done].
  repeat split. intros h Hh. simpl. by apply lookup_insert_ne.
Qed.

(** X7. After a call has been answered 401, the store in memory is as before,
    so the guard renders what it rendered, but the calls that follow leave
    without an Authorization header being added. *)
Theorem after_unauthorized_calls_go_out_bare
    {A : Type} (adapter : Config → Outcome) (config next : Config)
    (e : AxiosError) (children : A) (w : World) :
  adapter (Api.request_fulfilled config w) = Failed e →
  Api.unauthorized e = true →
  Guard.PrivateRoute children (Api.request adapter config w).1
    = Guard.PrivateRoute children w
  ∧ Api.request_fulfilled next (Api.request adapter config w).1 = next.
Proof.
  intros Hfail He. unfold Api.request. rewrite Hfail.
  unfold Api.response_rejected. rewrite He. split; [done|].
  apply request_fulfilled_no_token. unfold token_in_storage; simpl.
  by rewrite getItem_removeItem.
Qed.

Lemma after_unauthorized_calls_go_out_bare_witness :
  Guard.PrivateRoute "dashboard"
    (Api.request (λ _, Failed expired) (Api.create "" "get" "/api/products/" None)
       signed_in).1
    = Guard.Children "dashboard"
  ∧ Api.request_fulfilled (Api.create "" "get" "/api/stocks/" None)
      (Api.request (λ _, Failed expired) (Api.create "" "get" "/api/products/" None)
         signed_in).1
    = Api.create "" "get" "/api/stocks/" None.
Proof.
  apply (after_unauthorized_calls_go_out_bare (λ _, Failed expired)
           (Api.create "" "get" "/api/products/" None)
           (Api.create "" "get" "/api/stocks/" None)
           expired "dashboard" signed_in); reflexivity.
Defined.

(** X8. The navbar's logout: whatever the world was, afterwards the guard
    answers any protected screen with the redirect, the location is the login
    entry point, the store and storage are in sync, calls leave without an
    Authorization header being added, and the other keys of durable storage
    are kept. *)
Theorem handleLogout_signs_out {A : Type} (children : A) (next : Config) (w : World) :
  Guard.PrivateRoute children (Navbar.handleLogout w) = Guard.Navigate "/login" true
  ∧ href (Navbar.handleLogout w) = "/login"
  ∧ in_sync (Navbar.handleLogout w)
  ∧ Api.request_fulfilled next (Navbar.handleLogout w) = next
  ∧ (∀ k, k ≠ "token" →
       getItem k (localStorage (Navbar.handleLogout w)) = getItem k (localStorage w)).
Proof.
  split; [done|]. split; [done|]. split; [apply in_sync_logout|]. split.
  - apply request_fulfilled_no_token. unfold token_in_storage; simpl.
    by rewrite getItem_removeItem.
  - intros k Hk. simpl. by apply getItem_removeItem_ne.
Qed.

Lemma handleLogout_signs_out_witness :
  getItem "rememberedUser"
    (localStorage (Navbar.handleLogout
                     (on_storage (setItem "rememberedUser" "ann") signed_in)))
  = Some "ann".
Proof.
  pose proof (handleLogout_signs_out "dashboard"
                (Api.create "" "get" "/api/products/" None)
                (on_storage (setItem "rememberedUser" "ann") signed_in))
    as (_ & _ & _ & _ & H).
  rewrite (H "rememberedUser"); [reflexivity | discriminate].
Defined.

End GatewayMore.

(** ** The login form *)
Section LoginForm.
Import AuthSlice.

Lemma trimStart_blank (s : string) : blank s = true → trimStart s = "".
Proof.
  induction s as [|c s IH]; simpl; [done|].
  destruct (is_space c); simpl; [exact IH | discriminate].
Qed.

Lemma trimStart_head (s : string) :
  blank s = false → ∃ c r, trimStart s = String c r ∧ is_space c = false.
Proof.
  induction s as [|c s IH]; simpl; [discriminate|].
  destruct (is_space c) eqn:Hc; simpl; [exact IH|].
  intros _. by exists c, s.
Qed.

Lemma trimEnd_head (c : Ascii.ascii) (r : string) :
  is_space c = false → trimEnd (String c r) ≠ "".
Proof.
  intros Hc. simpl. rewrite Hc. by destruct (trimEnd r).
Qed.

Lemma trim_empty (s : string) : trim s = "" ↔ blank s = true.
Proof.
  unfold trim. split.
  - intros H. destruct (blank s) eqn:Hb; [done|].
    destruct (trimStart_head s Hb) as (c & r & Hs & Hc).
    rewrite Hs in H. by destruct (trimEnd_head c r Hc).
  - intros Hb. by rewrite (trimStart_blank s Hb).
Qed.

Lemma validateForm_iff (formData : Login.FormData) :
  Login.validateForm formData = true
  ↔ blank (Login.username formData) = false
    ∧ (8 ≤ String.length (Login.password formData))%nat.
Proof.
  unfold Login.validateForm, Login.validationErrors.
  assert (Hu : truthy (Some (trim (Login.username formData)))
               = negb (blank (Login.username formData))).
  { destruct (blank (Login.username formData)) eqn:Hb.
    - apply trim_empty in Hb. by rewrite Hb.
    - destruct (trim (Login.username formData)) eqn:Ht; [|done].
      apply trim_empty in Ht. congruence. }
  rewrite Hu, negb_involutive. clear Hu.
  assert (Hp : truthy (Some (Login.password formData)) = false →
               String.length (Login.password formData) = 0%nat).
  { by destruct (Login.password formData). }
  destruct (blank (Login.username formData));
    destruct (truthy (Some (Login.password formData))); cbn [negb];
    try (specialize (Hp eq_refl));
    destruct (Nat.ltb_spec (String.length (Login.password formData)) 8)
      as [Hlen|Hlen];
    (split;
     [ intros H; vm_compute in H; first [discriminate H | done]
     | intros [H1 H2]; first [discriminate H1 | lia | reflexivity] ]).
Qed.

Section Component.
Variable base : string.
Variable adapter : Config → Outcome.
Variable stringify : Login.FormData → string.
Variable stringify_user : string → string.
Variable access : Response → string.
Variable detail : AxiosError → option string.

Lemma post_answered (u d : string) (w : World) (r : Response) :
  adapter (Api.request_fulfilled (Api.create base "post" u (Some d)) w) = Answered r →
  Api.post base adapter u d w
  = (transmit (Api.request_fulfilled (Api.create base "post" u (Some d)) w) w,
     Resolved r).
Proof. intros H. unfold Api.post, Api.request. by rewrite H. Qed.

Lemma post_failed (u d : string) (w : World) (e : AxiosError) :
  adapter (Api.request_fulfilled (Api.create base "post" u (Some d)) w) = Failed e →
  Api.post base adapter u d w
  = Api.response_rejected e
      (transmit (Api.request_fulfilled (Api.create base "post" u (Some d)) w) w).
Proof. intros H. unfold Api.post, Api.request. by rewrite H. Qed.

(** X9. The login form is valid exactly when the user name holds a character
    that is not white space and the password has eight characters or more;
    a form that is not valid is not submitted: the handler returns without
    dispatching anything and without sending a request. *)
Theorem login_form_validation
    (formData : Login.FormData) (rememberMe : bool) (w : World) :
  (Login.validateForm formData = true
   ↔ blank (Login.username formData) = false
     ∧ (8 ≤ String.length (Login.password formData))%nat)
  ∧ (blank (Login.username formData) = true
     ∨ (String.length (Login.password formData) < 8)%nat →
     Login.handleSubmit base adapter stringify stringify_user access detail
       formData rememberMe w = w).
Proof.
  split; [apply validateForm_iff|].
  intros Hbad. unfold Login.handleSubmit.
  destruct (Login.validateForm formData) eqn:Hv; [|done].
  apply validateForm_iff in Hv as [Hb Hl].
  destruct Hbad as [Hbad|Hbad]; [congruence | lia].
Qed.

(** X10. A valid form that the backend accepts: one request is sent, to the
    token endpoint with the form as body; the session ends Authenticated with
    the token of the answer in memory and in storage, not loading, without
    error, at the home location; and the user name is remembered exactly when
    asked. *)
Theorem handleSubmit_accepted
    (formData : Login.FormData) (rememberMe : bool) (w : World) (r : Response) :
  Login.validateForm formData = true →
  adapter (Api.request_fulfilled (Api.create base "post" "/api/auth/token/" (Some (stringify formData))) w) = Answered r →
  session (Login.handleSubmit base adapter stringify stringify_user access detail
       formData rememberMe w) = Authenticated
  ∧ token (auth (Login.handleSubmit base adapter stringify stringify_user access detail
       formData rememberMe w)) = Some (access r)
  ∧ getItem "token" (localStorage (Login.handleSubmit base adapter stringify stringify_user access detail
       formData rememberMe w))
    = Some (access r)
  ∧ loading (auth (Login.handleSubmit base adapter stringify stringify_user access detail
       formData rememberMe w)) = false
  ∧ error (auth (Login.handleSubmit base adapter stringify stringify_user access detail
       formData rememberMe w)) = None
  ∧ href (Login.handleSubmit base adapter stringify stringify_user access detail
       formData rememberMe w) = "/"
  ∧ network (Login.handleSubmit base adapter stringify stringify_user access detail
       formData rememberMe w)
    = (network w ++ [Api.request_fulfilled (Api.create base "post" "/api/auth/token/" (Some (stringify formData))) w])%list
  ∧ getItem "rememberedUser" (localStorage (Login.handleSubmit base adapter stringify stringify_user access detail
       formData rememberMe w))
    = (if rememberMe then Some (stringify_user (Login.username formData)) else None).
Proof.
  intros Hvalid Hok. unfold Login.handleSubmit. rewrite Hvalid. cbn [negb].
  rewrite (post_answered _ _ (setError None (setLoading true w)) r Hok).
  destruct rememberMe;
    (repeat split; unfold getItem; simpl; unfold setItem, removeItem;
     rewrite ?lookup_insert_ne, ?lookup_delete_ne by done;
     first [apply lookup_insert_eq | apply lookup_delete_eq]).
Qed.

End Component.
End LoginForm.

Section LoginOutcome.
Import AuthSlice.
Variable base : string.
Variable adapter : Config → Outcome.
Variable stringify : Login.FormData → string.
Variable stringify_user : string → string.
Variable access : Response → string.
Variable detail : AxiosError → option string.

(** X11. A valid form that the backend refuses, or that never reaches it:
    one request is sent; the store ends not loading, with the detail of the
    answer as error, or the stock message when there is none. No session is
    created: an Anonymous session stays Anonymous and no token appears in
    storage. When the refusal is a 401 the gateway also moves the location to
    the login entry point and removes the stored token. *)
Theorem handleSubmit_refused
    (formData : Login.FormData) (rememberMe : bool) (w : World) (e : AxiosError) :
  Login.validateForm formData = true →
  adapter (Api.request_fulfilled
             (Api.create base "post" "/api/auth/token/" (Some (stringify formData))) w)
    = Failed e →
  let w' := Login.handleSubmit base adapter stringify stringify_user access detail
              formData rememberMe w in
  error (auth w') = Some (Login.errorMessage detail e)
  ∧ (truthy (detail e) = false →
     Login.errorMessage detail e = "Failed to login. Please try again.")
  ∧ loading (auth w') = false
  ∧ network w'
    = (network w ++
       [Api.request_fulfilled
          (Api.create base "post" "/api/auth/token/" (Some (stringify formData))) w])%list
  ∧ (session w = Anonymous → session w' = Anonymous)
  ∧ (getItem "token" (localStorage w) = None →
     getItem "token" (localStorage w') = None)
  ∧ getItem "rememberedUser" (localStorage w')
    = getItem "rememberedUser" (localStorage w)
  ∧ href w' = (if Api.unauthorized e then "/login" else href w)
  ∧ (Api.unauthorized e = true → getItem "token" (localStorage w') = None).
Proof.
  intros Hvalid Hfail w'. subst w'. unfold Login.handleSubmit.
  rewrite Hvalid. cbn [negb].
  rewrite (post_failed _ _ _ _ (setError None (setLoading true w)) e Hfail).
  unfold Api.response_rejected. cbv zeta.
  set (msg := Login.errorMessage detail e).
  assert (Hmsg : truthy (detail e) = false →
                 msg = "Failed to login. Please try again.").
  { unfold msg, Login.errorMessage. destruct (detail e) as [d|]; [|done].
    by intros ->. }
  destruct (includes msg "Invalid username or password") eqn:Hinc;
    [ rewrite (setError_matched msg _ Hinc)
    | rewrite (setError_unmatched msg _ Hinc) ];
    (destruct (Api.unauthorized e);
     unfold session, getItem; simpl; unfold removeItem;
     repeat split; try done;
     rewrite ?lookup_delete_eq; try done;
     intros; rewrite ?lookup_delete_ne by done; try done).
Qed.

End LoginOutcome.

Section LoginWitnesses.
Import AuthSlice.

Lemma login_form_validation_witness :
  Login.handleSubmit "" issuing Login.username (λ u, u) body (λ _, None)
    {| Login.username := "ann"; Login.password := "short" |} true
    (startup ∅ "/login")
  = startup ∅ "/login".
Proof.
  apply (login_form_validation "" issuing Login.username (λ u, u) body (λ _, None)
           {| Login.username := "ann"; Login.password := "short" |} true
           (startup ∅ "/login")).
  right. simpl. lia.
Defined.

Lemma handleSubmit_accepted_witness :
  session (Login.handleSubmit "" issuing Login.username (λ u, u) body (λ _, None)
             ann true (startup ∅ "/login"))
  = Authenticated.
Proof.
  refine (proj1 (handleSubmit_accepted "" issuing Login.username (λ u, u) body
                   (λ _, None) ann true (startup ∅ "/login")
                   {| status := 200; body := "abc" |} _ _)); reflexivity.
Defined.

Lemma handleSubmit_refused_witness :
  href (Login.handleSubmit "" (refusing expired) Login.username (λ u, u) body
          (λ _, None) ann false (startup ∅ "/"))
  = "/login".
Proof.
  pose proof (handleSubmit_refused "" (refusing expired) Login.username (λ u, u)
                body (λ _, None) ann false (startup ∅ "/") expired
                eq_refl eq_refl) as H.
  cbv zeta in H. destruct H as (_ & _ & _ & _ & _ & _ & _ & H & _).
  exact H.
Defined.

End LoginWitnesses.

(** ** The inventory slice *)
Section InventoryLists.

Lemma findIndex_None {A : Type} (f : A → bool) (l : list A) :
  findIndex f l = None ↔ Forall (λ x, f x = false) l.
Proof.
  induction l as [|x l IH]; simpl.
  - split; [constructor | done].
  - destruct (f x) eqn:Hx.
    + split; [done | intros H; inversion H; congruence].
    + rewrite fmap_None, IH. split.
      * by constructor.
      * intros H. by inversion H.
Qed.

Lemma findIndex_Some {A : Type} (f : A → bool) (l : list A) (i : nat) :
  findIndex f l = Some i →
  ∃ x, l !! i = Some x ∧ f x = true ∧ Forall (λ y, f y = false) (take i l).
Proof.
  revert i. induction l as [|x l IH]; intros i; simpl; [done|].
  destruct (f x) eqn:Hx.
  - intros [= <-]. exists x. repeat split; [done | constructor].
  - intros H. apply fmap_Some in H as (j & Hj & ->).
    destruct (IH j Hj) as (y & Hy & Hfy & Hbefore).
    exists y. repeat split; [done..|]. simpl. by constructor.
Qed.

Lemma replace_found_keys {A : Type} (key : A → N) (payload : A) (l : list A) :
  key <$> replace_found (λ x, (key x =? key payload)%N) payload l = key <$> l.
Proof.
  unfold replace_found.
  destruct (findIndex _ l) as [i|] eqn:Hi; [|done].
  apply findIndex_Some in Hi as (x & Hx & Hkey & _).
  apply N.eqb_eq in Hkey.
  rewrite list_fmap_insert. apply list_insert_id.
  rewrite list_lookup_fmap, Hx. simpl. by rewrite Hkey.
Qed.

Lemma replace_found_absent {A : Type} (key : A → N) (payload : A) (l : list A) :
  Forall (λ x, key x ≠ key payload) l →
  replace_found (λ x, (key x =? key payload)%N) payload l = l.
Proof.
  intros H. unfold replace_found.
  assert (Hnone : findIndex (λ x, (key x =? key payload)%N) l = None).
  { apply findIndex_None. eapply Forall_impl; [exact H|].
    intros x Hx. by apply N.eqb_neq. }
  by rewrite Hnone.
Qed.

Lemma replace_found_present {A : Type} (key : A → N) (payload : A) (l : list A) :
  Exists (λ x, key x = key payload) l →
  payload ∈ replace_found (λ x, (key x =? key payload)%N) payload l.
Proof.
  intros H. unfold replace_found.
  destruct (findIndex _ l) as [i|] eqn:Hi.
  - apply findIndex_Some in Hi as (x & Hx & _ & _).
    apply list_elem_of_lookup. exists i.
    apply list_lookup_insert_eq. by eapply lookup_lt_Some.
  - apply findIndex_None in Hi. apply Exists_exists in H as (x & Hin & Hx).
    rewrite Forall_forall in Hi. specialize (Hi x Hin).
    apply N.eqb_neq in Hi. done.
Qed.

Lemma replace_found_after_push {A : Type} (key : A → N) (x payload : A) (l : list A) :
  Forall (λ y, key y ≠ key x) l → key payload = key x →
  replace_found (λ y, (key y =? key payload)%N) payload (l ++ [x])%list
  = (l ++ [payload])%list.
Proof.
  intros Hfresh Hkey. unfold replace_found.
  assert (Hi : findIndex (λ y, (key y =? key payload)%N) (l ++ [x])%list
               = Some (length l)).
  { induction Hfresh as [|y l Hy _ IH]; simpl.
    - rewrite Hkey. by rewrite N.eqb_refl.
    - rewrite Hkey. apply N.eqb_neq in Hy. rewrite Hy.
      rewrite Hkey in IH. by rewrite IH. }
  rewrite Hi. rewrite insert_app_r_alt by done.
  by rewrite Nat.sub_diag.
Qed.

Lemma filter_fresh {A : Type} (key : A → N) (i : N) (l : list A) :
  Forall (λ y, key y ≠ i) l → filter (λ y, key y ≠ i) l = l.
Proof.
  induction 1 as [|y l Hy _ IH]; [done|].
  rewrite filter_cons. destruct (decide (key y ≠ i)); [by rewrite IH | done].
Qed.

End InventoryLists.

Section InventoryReducers.
Import Inventory.

Lemma set_categories_same (s : State) : set_categories (categories s) s = s.
Proof. by destruct s. Qed.

(** X12. An update never adds or removes an entity: after
    [updateCategory.fulfilled], [updateProduct.fulfilled] and
    [updateStock.fulfilled] the list holds the same ids in the same order.
    When no category has the id of the payload the state is unchanged; when
    one has, the payload is in the list afterwards. *)
Theorem update_keeps_identities
    (c : Category) (p : Product) (m : StockMovement) (s : State) :
  id <$> categories (updateCategory_fulfilled c s) = id <$> categories s
  ∧ product_id <$> products (updateProduct_fulfilled p s) = product_id <$> products s
  ∧ movement_id <$> stock (updateStock_fulfilled m s) = movement_id <$> stock s
  ∧ (Forall (λ x, id x ≠ id c) (categories s) → updateCategory_fulfilled c s = s)
  ∧ (Exists (λ x, id x = id c) (categories s) →
     c ∈ categories (updateCategory_fulfilled c s)).
Proof.
  split; [apply (replace_found_keys id)|].
  split; [apply (replace_found_keys product_id)|].
  split; [apply (replace_found_keys movement_id)|].
  split.
  - intros H. unfold updateCategory_fulfilled.
    rewrite (replace_found_absent id c _ H). apply set_categories_same.
  - intros H. by apply (replace_found_present id).
Qed.

Lemma update_keeps_identities_witness :
  renamed_category ∈ categories (updateCategory_fulfilled renamed_category two_categories).
Proof.
  refine (proj2 (proj2 (proj2 (proj2
    (update_keeps_identities renamed_category
       {| product_id := 1; product_name := "Brush"; product_description := None;
          product_category := 1; quantity := 4 |}
       {| movement_id := 1; movement_product := 1; movement_type := "IN";
          quantity_changed := 4; notes := None |}
       two_categories)))) _).
  apply Exists_cons_hd. reflexivity.
Defined.


(** X14. For a category whose id is not yet in the list: deleting it right
    after [createCategory.fulfilled] gives back the state before the
    creation, and updating it right after the creation gives the state that
    creating the updated category would have given. *)
Theorem created_then_deleted_or_updated (c c' : Category) (s : State) :
  Forall (λ x, id x ≠ id c) (categories s) →
  id c' = id c →
  deleteCategory_fulfilled (id c) (createCategory_fulfilled c s) = s
  ∧ updateCategory_fulfilled c' (createCategory_fulfilled c s)
    = createCategory_fulfilled c' s.
Proof.
  intros Hfresh Hid. split.
  - unfold deleteCategory_fulfilled, createCategory_fulfilled; simpl.
    rewrite filter_app, (filter_fresh id (id c) _ Hfresh).
    rewrite filter_cons. destruct (decide (id c ≠ id c)); [done|].
    rewrite filter_nil, app_nil_r.
    by destruct s.
  - unfold updateCategory_fulfilled, createCategory_fulfilled; simpl.
    by rewrite (replace_found_after_push id c c' _ Hfresh Hid).
Qed.

Lemma created_then_deleted_or_updated_witness :
  deleteCategory_fulfilled (id empty_category)
    (createCategory_fulfilled empty_category initialState)
  = initialState.
Proof.
  refine (proj1 (created_then_deleted_or_updated empty_category renamed_category
                   initialState _ _)).
  - constructor.
  - reflexivity.
Defined.


(** X16. [clearFilters] does not restore the initial filters: for either
    section it leaves exactly the two filters [category] and [stockStatus],
    both empty, so that [search], [sortBy] and [sortOrder], which the initial
    state defines, are undefined afterwards. The other section is kept. *)
Theorem clearFilters_drops_search (section : string) (s : State) :
  filters (clearFilters section s) !! section
    = Some {[ "category" := ""; "stockStatus" := "" ]}
  ∧ (∀ f, f ∈ ["search"; "sortBy"; "sortOrder"] →
       (filters (clearFilters section s) !! section) ≫= (.!! f) = None)
  ∧ (∀ f, f ∈ ["search"; "sortBy"; "sortOrder"] →
       (filters initialState !! "categories") ≫= (.!! f) ≠ None
       ∧ (filters initialState !! "products") ≫= (.!! f) ≠ None)
  ∧ (∀ sec, sec ≠ section →
       filters (clearFilters section s) !! sec = filters s !! sec).
Proof.
  split; [apply lookup_insert_eq|]. split; [|split].
  - intros f Hf. simpl. rewrite lookup_insert_eq. simpl.
    repeat (apply elem_of_cons in Hf as [->|Hf]; [done|]).
    by apply elem_of_nil in Hf.
  - intros f Hf.
    repeat (apply elem_of_cons in Hf as [->|Hf]; [by split; vm_compute|]).
    by apply elem_of_nil in Hf.
  - intros sec Hsec. simpl. by apply lookup_insert_ne.
Qed.

Lemma clearFilters_drops_search_witness :
  (filters (clearFilters "categories" initialState) !! "categories")
    ≫= (.!! "search") = None.
Proof.
  apply (clearFilters_drops_search "categories" initialState).
  apply elem_of_cons. by left.
Defined.

End InventoryReducers.

Section DeleteFlow.
Import Inventory.

(** X17. Dispatching [deleteCategory]: exactly one DELETE request leaves
    the client; the category is removed from the list when the request is
    fulfilled, and when it is rejected the whole inventory state, list and
    error included, is as before. *)
Theorem dispatch_deleteCategory_outcome
    (base : string) (adapter : Config → Outcome) (i : N) (w : World) (s : State) :
  let config :=
    Api.request_fulfilled
      (Api.create base "delete" ("/categories/" +:+ pretty i +:+ "/") None) w in
  network (dispatch_deleteCategory base adapter i (w, s)).1
    = (network w ++ [config])%list
  ∧ method config = "delete"
  ∧ match adapter config with
    | Answered _ =>
        (dispatch_deleteCategory base adapter i (w, s)).2
        = deleteCategory_fulfilled i s
    | Failed _ => (dispatch_deleteCategory base adapter i (w, s)).2 = s
    end.
Proof.
  intros config. unfold dispatch_deleteCategory, InventorySlice.deleteCategory.
  cbn [fst snd]. unfold Api.delete.
  pose proof (request_network adapter
                (Api.create base "delete" ("/categories/" +:+ pretty i +:+ "/") None) w)
    as Hnet.
  assert (Hm : method config = "delete").
  { unfold config, Api.request_fulfilled.
    destruct (getItem "token" (localStorage w)) as [t|]; [|done].
    by destruct (truthy (Some t)). }
  fold config in Hnet.
  unfold Api.request, Api.response_rejected in *. fold config in Hnet |- *.
  split; [|split; [exact Hm|]].
  - destruct (adapter config); exact Hnet.
  - by destruct (adapter config).
Qed.

End DeleteFlow.

(** ** The UI slice *)
Section Ui.
Import UiSlice.

Lemma filter_keeps_all {A : Type} (P : A → Prop) `{!∀ x, Decision (P x)} (l : list A) :
  Forall P l → filter P l = l.
Proof.
  induction 1 as [|y l Hy _ IH]; [done|].
  rewrite filter_cons. destruct (decide (P y)); [by rewrite IH | done].
Qed.

(** X18. Toggling a modal flips whether it shows, and toggling it twice
    brings every modal back to showing or not as before. For a modal the
    state has an entry for, the state itself is restored; a name the state
    has no entry for is shown by the first toggle. *)
Theorem toggleModal_twice (name : string) (s : State) :
  shown name (toggleModal name s) = negb (shown name s)
  ∧ (∀ n, shown n (toggleModal name (toggleModal name s)) = shown n s)
  ∧ (is_Some (modals s !! name) → toggleModal name (toggleModal name s) = s)
  ∧ (modals s !! name = None → shown name (toggleModal name s) = true).
Proof.
  unfold shown, toggleModal; simpl. rewrite !lookup_insert_eq. simpl.
  split; [done|]. split; [|split].
  - intros n. rewrite insert_insert_eq, negb_involutive.
    destruct (decide (name = n)) as [<-|Hn].
    + by rewrite lookup_insert_eq.
    + by rewrite lookup_insert_ne.
  - intros [b Hb]. rewrite insert_insert_eq, negb_involutive, Hb. simpl.
    rewrite insert_id by done. by destruct s.
  - by intros ->.
Qed.

Lemma toggleModal_twice_witness :
  toggleModal "addCategory" (toggleModal "addCategory" initialState) = initialState.
Proof.
  apply (toggleModal_twice "addCategory" initialState).
  exists false. reflexivity.
Defined.


End Ui.

Section UiWitness.
Import UiSlice.


End UiWitness.

(** ** Screens *)
Section Screens.

(** X20. On the products screen the stock filter and the quantity badge
    agree: the filter [out] keeps the products with a red badge, the filter
    [low] keeps those whose badge is not green, so every product kept by
    [out] is kept by [low] as well; the empty filter keeps every product and
    any other value keeps none. *)
Theorem stock_filter_matches_badge (stockStatus : string) (product : Product) :
  (ProductsScreen.matchesStock "out" product = true
   ↔ ProductsScreen.badge product = "bg-danger")
  ∧ (ProductsScreen.matchesStock "low" product = true
     ↔ ProductsScreen.badge product ≠ "bg-success")
  ∧ (ProductsScreen.matchesStock "out" product = true →
     ProductsScreen.matchesStock "low" product = true)
  ∧ ProductsScreen.matchesStock "" product = true
  ∧ (stockStatus ≠ "" → stockStatus ≠ "low" → stockStatus ≠ "out" →
     ProductsScreen.matchesStock stockStatus product = false).
Proof.
  unfold ProductsScreen.matchesStock, ProductsScreen.badge.
  split; [|split; [|split; [|split]]].
  - simpl. destruct (Z.eqb_spec (quantity product) 0); [done|].
    split; [discriminate|]. by destruct (quantity product <=? 10)%Z.
  - simpl. destruct (Z.eqb_spec (quantity product) 0) as [->|]; [done|].
    destruct (quantity product <=? 10)%Z; [done|].
    split; [discriminate | by intros H; destruct H].
  - simpl. destruct (Z.eqb_spec (quantity product) 0) as [->|]; [done | discriminate].
  - done.
  - intros H1 H2 H3.
    rewrite (bool_decide_eq_false_2 _ H2), (bool_decide_eq_false_2 _ H3).
    by rewrite (truthy_Some_nonempty _ H1).
Qed.

Lemma stock_filter_matches_badge_witness :
  ProductsScreen.matchesStock "low"
    {| product_id := 1; product_name := "Brush"; product_description := None;
       product_category := 1; quantity := 0 |} = true.
Proof.
  refine (proj1 (proj2 (proj2 (stock_filter_matches_badge "in"
           {| product_id := 1; product_name := "Brush"; product_description := None;
              product_category := 1; quantity := 0 |}))) _).
  reflexivity.
Defined.

Lemma includes_empty (s : string) : includes s "" = true.
Proof. by destruct s. Qed.

(** X21. On the categories page an empty search box shows every category,
    those without a description included, whatever the list. *)
Theorem empty_search_shows_all
    (toLowerCase : string → string) (categories : list Category) :
  toLowerCase "" = "" →
  CategoriesSearch.filteredCategories toLowerCase "" categories = categories.
Proof.
  intros Hlow. unfold CategoriesSearch.filteredCategories.
  apply filter_keeps_all. apply Forall_forall. intros c _.
  unfold CategoriesSearch.matches. rewrite Hlow, includes_empty. done.
Qed.

Lemma empty_search_shows_all_witness :
  CategoriesSearch.filteredCategories (λ s, s) "" [empty_category; stocked]
  = [empty_category; stocked].
Proof. apply empty_search_shows_all. reflexivity. Defined.

End Screens.

Section MoreWitnesses.
Import AuthSlice.

Lemma reducer_frame_witness :
  getItem "rememberedUser"
    (localStorage (reducer Logout (on_storage (setItem "rememberedUser" "ann") signed_in)))
  = Some "ann".
Proof.
  rewrite (proj1 (reducer_frame Logout
                    (on_storage (setItem "rememberedUser" "ann") signed_in))
             "rememberedUser"); [reflexivity | discriminate].
Defined.

Lemma request_fulfilled_frame_witness :
  headers (Api.request_fulfilled (Api.create "" "get" "/api/products/" None) signed_in)
    !! "Content-Type" = Some "application/json".
Proof.
  pose proof (request_fulfilled_frame (Api.create "" "get" "/api/products/" None)
                signed_in) as (_ & _ & _ & _ & H).
  rewrite (H "Content-Type"); [reflexivity | discriminate].
Defined.



End MoreWitnesses.
